(** * Crash recovery and bootloader update in AP_HAL_ChibiOS::Util

    A shallow embedding of the watchdog-reset classifier, the backup-state
    accessors and [Util::flash_bootloader] of
    libraries/AP_HAL_ChibiOS/Util.cpp, with the properties the
    specification states about them. *)

From Stdlib Require Import ZArith String.
From Stdlib.Init Require Import Byte.
From Stdlib.Strings Require Import Byte.
From stdpp Require Import base decidable option list gmap strings fin_maps.

Local Open Scope Z_scope.

(** ** Part I: definitions *)

(** *** Machine integers *)

(** [uint8_t] arithmetic of the attempt counter. *)
Definition uint8 (z : Z) : Z := z `mod` 256.

(** Three [int32_t] variables a caller passes by reference
    ([lat, lon, alt_cm] or [roll_cd, pitch_cd, yaw_cd]).  The code passes
    these values on and does no arithmetic on them. *)
Definition triple : Type := Z * Z * Z.

(** *** The reset classifier and the backup accessors *)

(** The calls of hwdef/common/stm32_util.h and watchdog.h that Util.cpp
    makes.  Their bodies are not part of Util.cpp: the functions of Util.cpp
    are embedded over this interface, for any implementation of it.  A getter
    with output pointers receives the current values of the pointees and
    returns their values after the call. *)
Class Stm32Util (MCU : Type) := {
  stm32_was_watchdog_reset : MCU → bool;
  stm32_get_boot_backup_safety_state : MCU → bool;
  stm32_get_boot_backup_armed : MCU → bool;
  stm32_set_backup_armed : bool → MCU → MCU;
  stm32_set_backup_home : Z → Z → Z → MCU → MCU;
  stm32_get_backup_home : MCU → triple → triple;
  stm32_set_attitude : Z → Z → Z → MCU → MCU;
  stm32_get_attitude : MCU → triple → triple
}.

Section UtilBackup.
Context {MCU : Type} `{!Stm32Util MCU}.

(** return true if the reason for the reboot was a watchdog reset *)
Definition was_watchdog_reset (m : MCU) : bool :=
  stm32_was_watchdog_reset m.

(** return true if safety was off and this was a watchdog reset *)
Definition was_watchdog_safety_off (m : MCU) : bool :=
  stm32_was_watchdog_reset m
  && Bool.eqb (stm32_get_boot_backup_safety_state m) false.

(** return true if vehicle was armed and this was a watchdog reset *)
Definition was_watchdog_armed (m : MCU) : bool :=
  stm32_was_watchdog_reset m
  && Bool.eqb (stm32_get_boot_backup_armed m) true.

(** backup home state for restore on watchdog reset *)
Definition set_backup_home_state (lat lon alt_cm : Z) (m : MCU) : MCU :=
  stm32_set_backup_home lat lon alt_cm m.

(** [get_backup_home_state(lat, lon, alt_cm)]: [out] holds the caller's
    three variables before the call; the result is the returned flag and
    the three variables after the call. *)
Definition get_backup_home_state (m : MCU) (out : triple) : bool * triple :=
  if was_watchdog_reset m
  then (true, stm32_get_backup_home m out)
  else (false, out).

(** backup attitude for restore on watchdog reset *)
Definition set_backup_attitude (roll_cd pitch_cd yaw_cd : Z) (m : MCU) : MCU :=
  stm32_set_attitude roll_cd pitch_cd yaw_cd m.

(** get watchdog reset attitude *)
Definition get_backup_attitude (m : MCU) (out : triple) : bool * triple :=
  if was_watchdog_reset m
  then (true, stm32_get_attitude m out)
  else (false, out).
End UtilBackup.

(** *** The backup region *)

(** Modelled from the spec: the bodies of the [stm32_*] backup functions
    (hwdef/common) are missing.  The backup region has fixed fields for the
    armed flag, the safety state, the home position and the attitude. *)
Record BackupState := mkBackup {
  bk_armed : bool;
  bk_safety_state : bool;
  bk_lat : Z;
  bk_lon : Z;
  bk_alt_cm : Z;
  bk_roll_cd : Z;
  bk_pitch_cd : Z;
  bk_yaw_cd : Z
}.

(** Modelled from the spec: the reset-cause flag latched by the hardware,
    next to the backup region. *)
Record Mcu := mkMcu {
  watchdog_flag : bool;
  backup : BackupState
}.

Definition with_backup (f : BackupState → BackupState) (m : Mcu) : Mcu :=
  mkMcu (watchdog_flag m) (f (backup m)).

(** Modelled from the spec: the missing [stm32_*] functions as direct
    reads and unconditional writes of the fields of the region. *)
#[export] Instance backup_region : Stm32Util Mcu := {|
  stm32_was_watchdog_reset m := watchdog_flag m;
  stm32_get_boot_backup_safety_state m := bk_safety_state (backup m);
  stm32_get_boot_backup_armed m := bk_armed (backup m);
  stm32_set_backup_armed b :=
    with_backup (λ k, mkBackup b (bk_safety_state k) (bk_lat k) (bk_lon k)
                        (bk_alt_cm k) (bk_roll_cd k) (bk_pitch_cd k) (bk_yaw_cd k));
  stm32_set_backup_home lat lon alt_cm :=
    with_backup (λ k, mkBackup (bk_armed k) (bk_safety_state k) lat lon alt_cm
                        (bk_roll_cd k) (bk_pitch_cd k) (bk_yaw_cd k));
  stm32_get_backup_home m _ :=
    (bk_lat (backup m), bk_lon (backup m), bk_alt_cm (backup m));
  stm32_set_attitude roll_cd pitch_cd yaw_cd :=
    with_backup (λ k, mkBackup (bk_armed k) (bk_safety_state k) (bk_lat k)
                        (bk_lon k) (bk_alt_cm k) roll_cd pitch_cd yaw_cd);
  stm32_get_attitude m _ :=
    (bk_roll_cd (backup m), bk_pitch_cd (backup m), bk_yaw_cd (backup m))
|}.

(** Modelled from the spec: a watchdog reset latches the flag and keeps the
    content of the region; after a power cycle the flag is clear and the
    region holds whatever [junk] the memory powers up with. *)
Definition watchdog_reset (m : Mcu) : Mcu := mkMcu true (backup m).
Definition power_cycle (junk : BackupState) : Mcu := mkMcu false junk.

(** The writes that reach the region during normal operation:
    [WriteArmed b] is the write [set_soft_armed(b)] makes to it, the other
    two are [set_backup_home_state] and [set_backup_attitude]. *)
Inductive BackupWrite :=
| WriteArmed (b : bool)
| WriteHome (lat lon alt_cm : Z)
| WriteAttitude (roll_cd pitch_cd yaw_cd : Z).

Definition apply_write (m : Mcu) (wr : BackupWrite) : Mcu :=
  match wr with
  | WriteArmed b => stm32_set_backup_armed b m
  | WriteHome lat lon alt_cm => set_backup_home_state lat lon alt_cm m
  | WriteAttitude r p y => set_backup_attitude r p y m
  end.

Definition run_writes (ws : list BackupWrite) (m : Mcu) : Mcu :=
  foldl apply_write m ws.

(** The arguments of the last home (attitude) write of a history. *)
Definition as_home (wr : BackupWrite) : option triple :=
  match wr with WriteHome a b c => Some (a, b, c) | _ => None end.
Definition as_attitude (wr : BackupWrite) : option triple :=
  match wr with WriteAttitude a b c => Some (a, b, c) | _ => None end.
Definition as_armed (wr : BackupWrite) : option bool :=
  match wr with WriteArmed b => Some b | _ => None end.
Definition last_home (ws : list BackupWrite) : option triple :=
  last (omap as_home ws).
Definition last_attitude (ws : list BackupWrite) : option triple :=
  last (omap as_attitude ws).
Definition last_armed (ws : list BackupWrite) : option bool :=
  last (omap as_armed ws).

(** The home and the attitude a region holds. *)
Definition stored_home (m : Mcu) : triple :=
  (bk_lat (backup m), bk_lon (backup m), bk_alt_cm (backup m)).
Definition stored_attitude (m : Mcu) : triple :=
  (bk_roll_cd (backup m), bk_pitch_cd (backup m), bk_yaw_cd (backup m)).

(** Leftover content of a region, and a flight history: two home writes
    and two attitude writes around an arming. *)
Definition stale_region : BackupState :=
  mkBackup true false 473977420 85456590 48800 150 (-220) 9000.
Definition flight_history : list BackupWrite :=
  [WriteHome (-353632610) 1491652300 58400; WriteAttitude 0 0 0;
   WriteArmed true; WriteHome (-353632611) 1491652305 58410;
   WriteAttitude 1200 (-350) 27000; WriteArmed true].

(** *** The collaborators of the bootloader updater *)

(** An argument of a [printf] call. *)
Inductive PrintfArg :=
| ArgStr (s : string)
| ArgUInt (n : Z).

(** The calls [flash_bootloader] makes on its collaborators, in the order it
    makes them: the scheduler, the console, the resource store, the flash
    driver and the heap. *)
Inductive Event :=
| EvExpectDelay (ms : Z)
| EvDelay (ms : Z)
| EvPrintf (fmt : string) (args : list PrintfArg)
| EvFindDecompress (name : string) (fw fw_size : Z)
| EvMemcmp (fw addr fw_size res : Z)
| EvErasePage (page : Z) (ok : bool)
| EvFlashWrite (addr : Z) (data : list byte) (ok : bool)
| EvFree (ptr : Z).

(** [hal.flash] (AP_HAL::Flash): the driver behind it is not part of
    Util.cpp, so the updater is embedded over any driver.  [peek] is the
    memory-mapped content that [memcmp] reads at a flash address. *)
Class FlashDriver (F : Type) := {
  getpageaddr : F → Z → Z;
  erasepage : Z → F → bool * F;
  write : Z → list byte → F → bool * F;
  peek : F → Z → byte
}.

(** C's [memcmp] on the first [n] bytes: zero when they agree, otherwise the
    difference of the first two bytes that differ, as unsigned chars. *)
Fixpoint memcmp (s1 s2 : list byte) (n : nat) : Z :=
  match n, s1, s2 with
  | S n', b1 :: t1, b2 :: t2 =>
      if Byte.eqb b1 b2 then memcmp t1 t2 n'
      else Z.of_N (Byte.to_N b1) - Z.of_N (Byte.to_N b2)
  | _, _, _ => 0
  end.

Definition max_attempts : Z := 10.
Definition fw_name : string := "bootloader.bin".

(** How the retry loop is left: by its condition, by the [return] in its
    body, or (in the embedding only) by running out of fuel. *)
Inductive LoopOut :=
| LoopFellThrough
| LoopReturned (b : bool)
| LoopNoFuel.

Section Updater.
Context {F : Type} `{!FlashDriver F}.

(** What the updater acts on.  [expect_delay] is the stall allowance the
    scheduler currently holds, [clock_ms] the time spent in [delay];
    [romfs] maps a resource name to its decompressed content; [heap] maps
    the address of each live block to its bytes. *)
Record World := mkWorld {
  expect_delay : Z;
  clock_ms : Z;
  romfs : gmap string (list byte);
  heap : gmap Z (list byte);
  flash : F
}.

(** A computation reads and updates the world and emits the calls it made. *)
Definition M (A : Type) : Type := World → A * World * list Event.

#[local] Instance M_ret : MRet M := λ A a w, (a, w, []).
#[local] Instance M_bind : MBind M := λ A B k m w,
  let '(a, w1, e1) := m w in
  let '(b, w2, e2) := k a w1 in
  (b, w2, e1 ++ e2).

(** The [n] bytes of flash from address [addr]. *)
Definition read_flash (f : F) (addr : Z) (n : nat) : list byte :=
  (λ i : nat, peek f (addr + Z.of_nat i)) <$> seq 0 n.

(** The bytes a pointer into the heap points to (none when it dangles). *)
Definition deref (w : World) (p : Z) : list byte := default [] (heap w !! p).

(** [hal.scheduler->expect_delay_ms(ms)] *)
Definition scheduler_expect_delay_ms (ms : Z) : M unit := λ w,
  (tt, mkWorld ms (clock_ms w) (romfs w) (heap w) (flash w), [EvExpectDelay ms]).

(** [hal.scheduler->delay(ms)] *)
Definition scheduler_delay (ms : Z) : M unit := λ w,
  (tt, mkWorld (expect_delay w) (clock_ms w + ms) (romfs w) (heap w) (flash w),
   [EvDelay ms]).

(** [hal.console->printf(fmt, args...)] *)
Definition console_printf (fmt : string) (args : list PrintfArg) : M unit := λ w,
  (tt, w, [EvPrintf fmt args]).

(** Modelled from the spec: [AP_ROMFS::find_decompress(name, size)] is
    missing; it looks the resource up by name and returns a freshly allocated
    buffer holding its content, with its length, or the null pointer when
    the resource is absent (the length is then not used). *)
Definition find_decompress (name : string) : M (Z * Z) := λ w,
  match romfs w !! name with
  | None => ((0, 0), w, [EvFindDecompress name 0 0])
  | Some data =>
      let p := fresh ({[0]} ∪ dom (heap w)) in
      let n := Z.of_nat (length data) in
      ((p, n),
       mkWorld (expect_delay w) (clock_ms w) (romfs w) (<[p := data]> (heap w)) (flash w),
       [EvFindDecompress name p n])
  end.

(** [free(ptr)] *)
Definition free (ptr : Z) : M unit := λ w,
  (tt, mkWorld (expect_delay w) (clock_ms w) (romfs w) (delete ptr (heap w)) (flash w),
   [EvFree ptr]).

(** [hal.flash->getpageaddr(page)] *)
Definition flash_getpageaddr (page : Z) : M Z := λ w,
  (getpageaddr (flash w) page, w, []).

(** [memcmp(fw, (const void * )addr, fw_size)]: the buffer against the live
    flash content. *)
Definition memcmp_flash (fw addr fw_size : Z) : M Z := λ w,
  let n := Z.to_nat fw_size in
  let r := memcmp (deref w fw) (read_flash (flash w) addr n) n in
  (r, w, [EvMemcmp fw addr fw_size r]).

(** [hal.flash->erasepage(page)] *)
Definition flash_erasepage (page : Z) : M bool := λ w,
  let '(ok, f') := erasepage page (flash w) in
  (ok, mkWorld (expect_delay w) (clock_ms w) (romfs w) (heap w) f',
   [EvErasePage page ok]).

(** [hal.flash->write(addr, fw, fw_size)] *)
Definition flash_write (addr fw fw_size : Z) : M bool := λ w,
  let data := take (Z.to_nat fw_size) (deref w fw) in
  let '(ok, f') := write addr data (flash w) in
  (ok, mkWorld (expect_delay w) (clock_ms w) (romfs w) (heap w) f',
   [EvFlashWrite addr data ok]).

(** *** The bootloader updater *)

(** The loop [for (uint8_t i=0; i<max_attempts; i++)] of [flash_bootloader],
    entered with the counter at [i]. *)
Fixpoint write_attempts (fuel : nat) (i addr fw fw_size : Z) : M LoopOut :=
  match fuel with
  | O => mret LoopNoFuel
  | S fuel' =>
      if bool_decide (i < max_attempts) then
        ok ← flash_write addr fw fw_size;
        if negb ok then
          console_printf "Flash failed! (attempt=%u/%u)\n"
            [ArgUInt (i + 1); ArgUInt max_attempts];;
          scheduler_delay 1000;;
          write_attempts fuel' (uint8 (i + 1)) addr fw fw_size
        else
          console_printf "Flash OK\n" [];;
          free fw;;
          scheduler_expect_delay_ms 0;;
          mret (LoopReturned true)
      else mret LoopFellThrough
  end.

(** [Util::flash_bootloader]; [None] only when the loop ran out of fuel. *)
Definition flash_bootloader : M (option bool) :=
  scheduler_expect_delay_ms 5000;;
  '(fw, fw_size) ← find_decompress fw_name;
  if bool_decide (fw = 0) then
    console_printf "failed to find %s\n" [ArgStr fw_name];;
    scheduler_expect_delay_ms 0;;
    mret (Some false)
  else
    addr ← flash_getpageaddr 0;
    c ← memcmp_flash fw addr fw_size;
    if bool_decide (c = 0) then
      console_printf "Bootloader up-to-date\n" [];;
      free fw;;
      scheduler_expect_delay_ms 0;;
      mret (Some true)
    else
      console_printf "Erasing\n" [];;
      ok ← flash_erasepage 0;
      if negb ok then
        console_printf "Erase failed\n" [];;
        free fw;;
        scheduler_expect_delay_ms 0;;
        mret (Some false)
      else
        console_printf "Flashing %s @%08x\n" [ArgStr fw_name; ArgUInt addr];;
        out ← write_attempts (S (Z.to_nat max_attempts)) 0 addr fw fw_size;
        match out with
        | LoopReturned b => mret (Some b)
        | LoopNoFuel => mret None
        | LoopFellThrough =>
            console_printf "Flash failed after %u attempts\n" [ArgUInt max_attempts];;
            free fw;;
            scheduler_expect_delay_ms 0;;
            mret (Some false)
        end.
End Updater.

(** *** A scripted flash driver *)

(** Modelled from the spec: the flash driver is missing; section 6 gives it
    a page address, an erase and a write that each report success or
    failure.  This driver holds the content of page 0 and two scripts with
    the outcome of the coming erase and write calls (a call beyond the
    script succeeds); a successful erase fills page 0 with 0xFF, a
    successful write stores the bytes, a failed call leaves the content. *)
Record SimFlash := mkSim {
  sim_mem : list byte;
  sim_erase_script : list bool;
  sim_write_script : list bool
}.

(** 0x08000000, where the flash of an STM32 is mapped. *)
Definition sim_base : Z := 134217728.
Definition sim_page_size : Z := 16384.

Definition sim_erasepage (page : Z) (f : SimFlash) : bool * SimFlash :=
  let ok := default true (head (sim_erase_script f)) in
  let mem' :=
    if ok && bool_decide (page = 0)
    then replicate (length (sim_mem f)) xff else sim_mem f in
  (ok, mkSim mem' (tail (sim_erase_script f)) (sim_write_script f)).

Definition sim_write (addr : Z) (data : list byte) (f : SimFlash) : bool * SimFlash :=
  let ok := default true (head (sim_write_script f)) in
  let off := Z.to_nat (addr - sim_base) in
  let mem' :=
    if ok && bool_decide (sim_base ≤ addr)
    then take off (sim_mem f) ++ data ++ drop (off + length data) (sim_mem f)
    else sim_mem f in
  (ok, mkSim mem' (sim_erase_script f) (tail (sim_write_script f))).

#[export] Instance sim_flash : FlashDriver SimFlash := {|
  getpageaddr _ page := sim_base + page * sim_page_size;
  erasepage := sim_erasepage;
  write := sim_write;
  peek f a := nth (Z.to_nat (a - sim_base)) (sim_mem f) xff
|}.

(** A four-byte bootloader image. *)
Definition image : list byte := [xaa; xbb; xcc; xdd].

(** *** Views of a call trace *)

(** The steps of the retry loop: a programming attempt with its outcome, or
    a backoff with its length in ms. *)
Inductive RetryStep :=
| Attempt (ok : bool)
| Backoff (ms : Z).

Definition retry_step (e : Event) : option RetryStep :=
  match e with
  | EvFlashWrite _ _ ok => Some (Attempt ok)
  | EvDelay ms => Some (Backoff ms)
  | _ => None
  end.

(** The erase and write calls: the operations that modify the flash. *)
Definition is_flash_op (e : Event) : bool :=
  match e with
  | EvErasePage _ _ | EvFlashWrite _ _ _ => true
  | _ => false
  end.

Definition is_expect_delay (e : Event) : bool :=
  match e with EvExpectDelay _ => true | _ => false end.

Definition write_succeeded (e : Event) : bool :=
  match e with EvFlashWrite _ _ ok => ok | _ => false end.

(** The pointers passed to [free]. *)
Definition freed (e : Event) : option Z :=
  match e with EvFree p => Some p | _ => None end.

(** The events of one failed attempt with counter [i], and of [k] failed
    attempts in a row from counter [i]. *)
Definition attempt_failed (addr : Z) (data : list byte) (i : Z) : list Event :=
  [EvFlashWrite addr data false;
   EvPrintf "Flash failed! (attempt=%u/%u)\n" [ArgUInt (i + 1); ArgUInt max_attempts];
   EvDelay 1000].

Fixpoint failed_attempts (addr : Z) (data : list byte) (i : Z) (k : nat) : list Event :=
  match k with
  | O => []
  | S k' => attempt_failed addr data i ++ failed_attempts addr data (i + 1) k'
  end.

(** *** The return paths of the updater *)

(** The five ways [flash_bootloader] returns; on [ProgramSuccess k] the
    write succeeded after [k] failed attempts. *)
Inductive ReturnPath :=
| FetchFail
| CompareEqual
| EraseFail
| ProgramExhausted
| ProgramSuccess (k : nat).

Definition path_result (p : ReturnPath) : bool :=
  match p with
  | FetchFail | EraseFail | ProgramExhausted => false
  | CompareEqual | ProgramSuccess _ => true
  end.

(** The calls made on each path, for a buffer at [fw] holding [data], the
    page address [addr] and the answer [c] of [memcmp]. *)
Definition path_events (p : ReturnPath) (fw addr : Z) (data : list byte) (c : Z)
    : list Event :=
  let n := Z.of_nat (length data) in
  match p with
  | FetchFail =>
      [EvExpectDelay 5000; EvFindDecompress fw_name 0 0;
       EvPrintf "failed to find %s\n" [ArgStr fw_name]; EvExpectDelay 0]
  | CompareEqual =>
      [EvExpectDelay 5000; EvFindDecompress fw_name fw n; EvMemcmp fw addr n c;
       EvPrintf "Bootloader up-to-date\n" []; EvFree fw; EvExpectDelay 0]
  | EraseFail =>
      [EvExpectDelay 5000; EvFindDecompress fw_name fw n; EvMemcmp fw addr n c;
       EvPrintf "Erasing\n" []; EvErasePage 0 false;
       EvPrintf "Erase failed\n" []; EvFree fw; EvExpectDelay 0]
  | ProgramExhausted =>
      [EvExpectDelay 5000; EvFindDecompress fw_name fw n; EvMemcmp fw addr n c;
       EvPrintf "Erasing\n" []; EvErasePage 0 true;
       EvPrintf "Flashing %s @%08x\n" [ArgStr fw_name; ArgUInt addr]]
      ++ failed_attempts addr data 0 (Z.to_nat max_attempts)
      ++ [EvPrintf "Flash failed after %u attempts\n" [ArgUInt max_attempts];
          EvFree fw; EvExpectDelay 0]
  | ProgramSuccess k =>
      [EvExpectDelay 5000; EvFindDecompress fw_name fw n; EvMemcmp fw addr n c;
       EvPrintf "Erasing\n" []; EvErasePage 0 true;
       EvPrintf "Flashing %s @%08x\n" [ArgStr fw_name; ArgUInt addr]]
      ++ failed_attempts addr data 0 k
      ++ [EvFlashWrite addr data true; EvPrintf "Flash OK\n" [];
          EvFree fw; EvExpectDelay 0]
  end.

Section UpdaterPaths.
Context {F : Type} `{!FlashDriver F}.
Implicit Types (w : @World F).

(** The address [find_decompress] gives the buffer it allocates, the page
    address and the answer of [memcmp] for a world holding the image
    [data]. *)
Definition fetched_ptr w : Z := fresh ({[0]} ∪ dom (heap w)).
Definition target_addr w : Z := getpageaddr (flash w) 0.
Definition compare_image w (data : list byte) : Z :=
  memcmp data (read_flash (flash w) (target_addr w) (length data)) (length data).

(** When each path is taken from [w] to [w'], with what it does to the
    flash and the clock. *)
Definition path_taken (p : ReturnPath) w w' : Prop :=
  match p with
  | FetchFail =>
      romfs w !! fw_name = None ∧ flash w' = flash w ∧ clock_ms w' = clock_ms w
  | CompareEqual =>
      ∃ data, romfs w !! fw_name = Some data ∧ compare_image w data = 0
        ∧ flash w' = flash w ∧ clock_ms w' = clock_ms w
  | EraseFail =>
      ∃ data, romfs w !! fw_name = Some data ∧ compare_image w data ≠ 0
        ∧ erasepage 0 (flash w) = (false, flash w') ∧ clock_ms w' = clock_ms w
  | ProgramExhausted =>
      ∃ data, romfs w !! fw_name = Some data ∧ compare_image w data ≠ 0
        ∧ (erasepage 0 (flash w)).1 = true
        ∧ clock_ms w' = clock_ms w + 1000 * max_attempts
  | ProgramSuccess k =>
      ∃ data, romfs w !! fw_name = Some data ∧ compare_image w data ≠ 0
        ∧ (erasepage 0 (flash w)).1 = true
        ∧ Z.of_nat k < max_attempts
        ∧ (∃ f0, write (target_addr w) data f0 = (true, flash w'))
        ∧ clock_ms w' = clock_ms w + 1000 * Z.of_nat k
  end.

(** The parts of a finished call: the value returned, the world it leaves
    and the calls it made. *)
Definition returned {A : Type} (run : A * @World F * list Event) : A := run.1.1.
Definition final_world {A : Type} (run : A * @World F * list Event) : @World F := run.1.2.
Definition calls {A : Type} (run : A * @World F * list Event) : list Event := run.2.

(** A call from [w] that found the flash up to date: it returned true,
    made one [free], of the buffer it fetched, left no block behind, and
    made no erase and no write, the flash being as it was. *)
Definition short_circuits w (run : option bool * @World F * list Event) : Prop :=
  returned run = Some true
  ∧ omap freed (calls run) = [fetched_ptr w]
  ∧ heap (final_world run) = heap w
  ∧ Forall (λ e, is_flash_op e = false) (calls run)
  ∧ flash (final_world run) = flash w.
End UpdaterPaths.

(** Worlds for the scripted driver: with the image in the resource store
    and with an empty resource store. *)
Definition sim_world (mem : list byte) (erases writes : list bool) : @World SimFlash :=
  mkWorld 0 0 {[ fw_name := image ]} ∅ (mkSim mem erases writes).
Definition sim_world_no_image (mem : list byte) : @World SimFlash :=
  mkWorld 0 0 ∅ ∅ (mkSim mem [] []).

(** *** The system identifier *)

Local Open Scope nat_scope.

(** The characters of a C string: the bytes before the first NUL. *)
Fixpoint c_str (s : list byte) : list byte :=
  match s with
  | [] => []
  | b :: t => if Byte.eqb b x00 then [] else b :: c_str t
  end.

(** [strncpy(dst, src, n)]: the [n] bytes it stores in [dst], the characters
    of [src] cut at [n] and padded with NULs. *)
Definition strncpy (src : list byte) (n : nat) : list byte :=
  let s := take n (c_str src) in
  s ++ replicate (n - length s) x00.

(** The digits of [%X]. *)
Definition hex_digits : list byte :=
  [x30; x31; x32; x33; x34; x35; x36; x37; x38; x39; x41; x42; x43; x44; x45; x46].
Definition hex_digit (n : nat) : byte := nth n hex_digits x30.

(** [%02X] of an [unsigned] converted from a [uint8_t]: two digits. *)
Definition fmt_02X (b : byte) : list byte :=
  [hex_digit (Byte.to_nat b / 16); hex_digit (Byte.to_nat b mod 16)].

(** [snprintf(buf, size, ...)] for the formatted text [s], with
    [0 < size]: at most [size - 1] characters and a NUL are stored, the
    rest of [buf] is kept. *)
Definition snprintf (buf : list byte) (size : nat) (s : list byte) : list byte :=
  let out := take (size - 1) s in
  out ++ [x00] ++ drop (length out + 1) buf.

(** [Util::get_system_id(buf)]: [board] is the string literal
    CHIBIOS_SHORT_BOARD_NAME, [udid i] the byte at [UDID_START + i], and
    [buf] the caller's 40 bytes; the result is the returned flag and the
    40 bytes after the call. *)
Definition get_system_id (board : list byte) (udid : nat → byte) (buf : list byte)
    : bool * list byte :=
  let serialid := udid <$> seq 0 12 in
  let sid (i : nat) := nth i serialid x00 in
  let board_name := strncpy board 13 ++ [x00] in
  let text :=
    c_str board_name ++ [x20]
    ++ fmt_02X (sid 3) ++ fmt_02X (sid 2) ++ fmt_02X (sid 1) ++ fmt_02X (sid 0)
    ++ [x20]
    ++ fmt_02X (sid 7) ++ fmt_02X (sid 6) ++ fmt_02X (sid 5) ++ fmt_02X (sid 4)
    ++ [x20]
    ++ fmt_02X (sid 11) ++ fmt_02X (sid 10) ++ fmt_02X (sid 9) ++ fmt_02X (sid 8) in
  let buf1 := snprintf buf 40 text in
  (true, <[39 := x00]> buf1).

(** The three groups of hexadecimal digits of the identifier. *)
Definition id_groups (udid : nat → byte) : list byte :=
  fmt_02X (udid 3) ++ fmt_02X (udid 2) ++ fmt_02X (udid 1) ++ fmt_02X (udid 0)
  ++ [x20]
  ++ fmt_02X (udid 7) ++ fmt_02X (udid 6) ++ fmt_02X (udid 5) ++ fmt_02X (udid 4)
  ++ [x20]
  ++ fmt_02X (udid 11) ++ fmt_02X (udid 10) ++ fmt_02X (udid 9) ++ fmt_02X (udid 8).

(** The whole text of the identifier, before it is cut to the buffer. *)
Definition id_text (board : list byte) (udid : nat → byte) : list byte :=
  take 13 (c_str board) ++ [x20] ++ id_groups udid.

(** Test data: the board name "fmuv3", a name of 16 characters
    "mRoControlZeroF7", a unique id and a 40 byte buffer. *)
Definition board_fmuv3 : list byte := [x66; x6d; x75; x76; x33].
Definition board_long : list byte :=
  [x6d; x52; x6f; x43; x6f; x6e; x74; x72; x6f; x6c; x5a; x65; x72; x6f; x46; x37].
Definition udid_sample (i : nat) : byte :=
  nth i [x2a; x00; x3c; x00; x0f; x51; x37; x33; x39; x34; x31; xe5] x00.
Definition udid_sample' (i : nat) : byte :=
  nth i [x2a; x00; x3c; x00; x0f; x51; x37; x33; x3b; x34; x31; xe5] x00.
(** A unique id that agrees with [udid_sample] on its 12 bytes only. *)
Definition udid_sample_ff (i : nat) : byte :=
  nth i [x2a; x00; x3c; x00; x0f; x51; x37; x33; x39; x34; x31; xe5] xff.

Definition buf40 : list byte := replicate 40 xff.

Local Open Scope Z_scope.

(** *** The IMU heater *)

(** The [float] operations [set_imu_temp] uses.  Its control flow does not
    look at a [float]: the embedding is over any implementation of them,
    [constrain_float] of AP_Math included. *)
Class FloatOps (R : Type) := {
  float_of_int : Z → R;
  float_kI : R;
  float_kP : R;
  fadd : R → R → R;
  fsub : R → R → R;
  fmul : R → R → R;
  fdiv : R → R → R;
  constrain_float : R → R → R → R
}.

(** A symbolic [float]: the expression the code evaluated. *)
Inductive FloatExpr :=
| FInt (z : Z)
| FkI
| FkP
| FAdd (a b : FloatExpr)
| FSub (a b : FloatExpr)
| FMul (a b : FloatExpr)
| FDiv (a b : FloatExpr)
| FConstrain (a lo hi : FloatExpr).

#[export] Instance float_expr : FloatOps FloatExpr := {|
  float_of_int := FInt;
  float_kI := FkI;
  float_kP := FkP;
  fadd := FAdd;
  fsub := FSub;
  fmul := FMul;
  fdiv := FDiv;
  constrain_float := FConstrain
|}.

(** [uint32_t] arithmetic of the millisecond clock. *)
Definition uint32 (z : Z) : Z := z `mod` 2 ^ 32.

(** What a call of [set_imu_temp] reads from outside the object: the
    [int8_t] a pointer points to, [AP_BoardConfig::io_enabled()] and
    [AP_HAL::millis()]. *)
Record ImuEnv := mkImuEnv {
  env_int8 : Z → Z;
  env_io_enabled : bool;
  env_millis : Z
}.

Section Heater.
Context {R : Type} `{!FloatOps R}.

(** The build options [HAL_WITH_IO_MCU && HAL_HAVE_IMU_HEATER], and the
    number of values of the type of [heater.count]; the declaration of
    [heater] is in Util.h. *)
Variable heater_built : bool.
Variable count_modulus : Z.

(** The member [heater]; [h_target] is the pointer, 0 when null. *)
Record Heater := mkHeater {
  h_target : Z;
  h_count : Z;
  h_sum : R;
  h_integrator : R;
  h_last_update_ms : Z
}.

(** [Util::set_imu_temp(current)]: the object after the call, and the duty
    cycle given to [iomcu.set_heater_duty_cycle], if it was called. *)
Definition set_imu_temp (current : R) (env : ImuEnv) (h : Heater) : Heater * option R :=
  if negb heater_built then (h, None)
  else if (h_target h =? 0) || (env_int8 env (h_target h) =? -1)
          || negb (env_io_enabled env)
  then (h, None)
  else
    (* average over temperatures to remove noise *)
    let count := (h_count h + 1) `mod` count_modulus in
    let sum := fadd (h_sum h) current in
    (* update once a second *)
    let now := env_millis env in
    if uint32 (now - h_last_update_ms h) <? 1000
    then (mkHeater (h_target h) count sum (h_integrator h) (h_last_update_ms h), None)
    else
      let current := fdiv sum (float_of_int count) in
      let target := float_of_int (env_int8 env (h_target h)) in
      (* limit to 65 degrees to prevent damage *)
      let target := constrain_float target (float_of_int 0) (float_of_int 65) in
      let err := fsub target current in
      let integrator := fadd (h_integrator h) (fmul float_kI err) in
      let integrator := constrain_float integrator (float_of_int 0) (float_of_int 70) in
      let output :=
        constrain_float (fadd (fmul float_kP err) integrator)
          (float_of_int 0) (float_of_int 100) in
      (mkHeater (h_target h) 0 (float_of_int 0) integrator now, Some output).

(** [Util::set_imu_target_temp(target)] *)
Definition set_imu_target_temp (target : Z) (h : Heater) : Heater :=
  if heater_built
  then mkHeater target (h_count h) (h_sum h) (h_integrator h) (h_last_update_ms h)
  else h.

(** A sequence of [set_imu_temp] calls, each with its sample and what it
    reads: the object after them and the duty cycles set, each with the
    clock value of its call. *)
Fixpoint run_imu (samples : list (R * ImuEnv)) (h : Heater) : Heater * list (Z * R) :=
  match samples with
  | [] => (h, [])
  | (current, env) :: rest =>
      let '(h1, out) := set_imu_temp current env h in
      let '(h2, outs) := run_imu rest h1 in
      (h2, match out with
           | Some duty => (env_millis env, duty) :: outs
           | None => outs
           end)
  end.
End Heater.

(** The clock values in [ts] are each at least 1000 ms, counted modulo
    [2 ^ 32], after the one before, the first after [last]. *)
Fixpoint spaced (last : Z) (ts : list Z) : Prop :=
  match ts with
  | [] => True
  | t :: rest => 1000 ≤ uint32 (t - last) ∧ spaced t rest
  end.

(** Test data for the heater: what a call reads when every [int8_t] holds
    [target_value], and a heater with its target at address 4096. *)
Definition imu_env (target_value : Z) (io : bool) (now : Z) : ImuEnv :=
  mkImuEnv (λ _, target_value) io now.
Definition heater_start : @Heater FloatExpr :=
  mkHeater 4096 0 (FInt 0) (FInt 0) 0.

(** ** Part II: properties *)

(** *** The reset classifier and the backup accessors *)

Section UtilBackupFacts.
Context {MCU : Type} `{!Stm32Util MCU}.

(** C1: on a boot that did not follow a watchdog reset, both getters return
    false (absent), whatever the backup region holds. *)
Theorem backup_absent_without_watchdog (m : MCU) (home att : triple) :
  was_watchdog_reset m = false →
  (get_backup_home_state m home).1 = false
  ∧ (get_backup_attitude m att).1 = false.
Proof.
  intros Hboot. unfold get_backup_home_state, get_backup_attitude.
  rewrite Hboot. split; reflexivity.
Qed.

(** C10: on a boot that did not follow a watchdog reset, both getters
    return false and leave the caller's three variables as they were. *)
Theorem backup_getters_keep_outputs (m : MCU) (home att : triple) :
  was_watchdog_reset m = false →
  get_backup_home_state m home = (false, home)
  ∧ get_backup_attitude m att = (false, att).
Proof.
  intros Hboot. unfold get_backup_home_state, get_backup_attitude.
  now rewrite Hboot.
Qed.

(** C6: [was_watchdog_safety_off] is true exactly when the reset was a
    watchdog reset and the stored safety boolean is false. *)
Theorem was_watchdog_safety_off_iff (m : MCU) :
  was_watchdog_safety_off m = true
  ↔ was_watchdog_reset m = true ∧ stm32_get_boot_backup_safety_state m = false.
Proof.
  unfold was_watchdog_safety_off, was_watchdog_reset.
  rewrite andb_true_iff, Bool.eqb_true_iff. reflexivity.
Qed.

(** C7: [was_watchdog_armed] is true exactly when the reset was a watchdog
    reset and the stored armed flag is true. *)
Theorem was_watchdog_armed_iff (m : MCU) :
  was_watchdog_armed m = true
  ↔ was_watchdog_reset m = true ∧ stm32_get_boot_backup_armed m = true.
Proof.
  unfold was_watchdog_armed, was_watchdog_reset.
  rewrite andb_true_iff, Bool.eqb_true_iff. reflexivity.
Qed.
End UtilBackupFacts.

(** A watchdog reset latches the flag and keeps the region. *)
Lemma watchdog_reset_flag (m : Mcu) : was_watchdog_reset (watchdog_reset m) = true.
Proof. reflexivity. Qed.

Lemma stored_home_reset (m : Mcu) : stored_home (watchdog_reset m) = stored_home m.
Proof. reflexivity. Qed.

Lemma stored_attitude_reset (m : Mcu) :
  stored_attitude (watchdog_reset m) = stored_attitude m.
Proof. reflexivity. Qed.

(** What one write does to the stored home and attitude. *)
Lemma stored_home_write (m : Mcu) (wr : BackupWrite) :
  stored_home (apply_write m wr) = default (stored_home m) (as_home wr).
Proof. destruct wr; reflexivity. Qed.

Lemma stored_attitude_write (m : Mcu) (wr : BackupWrite) :
  stored_attitude (apply_write m wr) = default (stored_attitude m) (as_attitude wr).
Proof. destruct wr; reflexivity. Qed.

(** The last element of the projection of a history extended by one write. *)
Lemma last_omap_snoc {A B} (f : A → option B) (l : list A) (x : A) :
  last (omap f (l ++ [x])) = match f x with Some y => Some y | None => last (omap f l) end.
Proof.
  rewrite omap_app. simpl. destruct (f x) as [y|].
  - apply last_snoc.
  - now rewrite app_nil_r.
Qed.

(** After any history of writes the region holds the home of the last home
    write (its initial home when there was none); likewise the attitude. *)
Lemma stored_home_run (ws : list BackupWrite) (m : Mcu) :
  stored_home (run_writes ws m) = default (stored_home m) (last_home ws).
Proof.
  unfold run_writes, last_home. induction ws as [|wr ws IH] using rev_ind.
  - reflexivity.
  - rewrite foldl_snoc, stored_home_write, IH, last_omap_snoc.
    now destruct (as_home wr).
Qed.

Lemma stored_attitude_run (ws : list BackupWrite) (m : Mcu) :
  stored_attitude (run_writes ws m) = default (stored_attitude m) (last_attitude ws).
Proof.
  unfold run_writes, last_attitude. induction ws as [|wr ws IH] using rev_ind.
  - reflexivity.
  - rewrite foldl_snoc, stored_attitude_write, IH, last_omap_snoc.
    now destruct (as_attitude wr).
Qed.

(** On the boot after a watchdog reset, [was_watchdog_armed] answers the
    last armed state written before the fault. *)
Lemma was_watchdog_armed_after_reset (ws : list BackupWrite) (m : Mcu) :
  was_watchdog_armed (watchdog_reset (run_writes ws m))
  = default (bk_armed (backup m)) (last_armed ws).
Proof.
  unfold was_watchdog_armed. simpl.
  assert (Heqb : ∀ b : bool, Bool.eqb b true = b) by (now intros []).
  rewrite Heqb. unfold run_writes, last_armed.
  induction ws as [|wr ws IH] using rev_ind.
  - reflexivity.
  - rewrite foldl_snoc, last_omap_snoc. destruct wr; simpl; auto.
Qed.

(** C2: on the boot after a watchdog reset, [get_backup_home_state] returns
    true with the arguments of the last [set_backup_home_state] of the
    history before the fault, and [get_backup_attitude] returns true with
    the arguments of the last [set_backup_attitude], whatever other writes
    the history holds and whatever the caller's variables held. *)
Theorem backup_round_trip (m : Mcu) (ws : list BackupWrite) (h a out1 out2 : triple) :
  let boot := watchdog_reset (run_writes ws m) in
  was_watchdog_reset boot = true
  ∧ (last_home ws = Some h → get_backup_home_state boot out1 = (true, h))
  ∧ (last_attitude ws = Some a → get_backup_attitude boot out2 = (true, a)).
Proof.
  intros boot. split; [apply watchdog_reset_flag|].
  unfold get_backup_home_state, get_backup_attitude.
  subst boot. rewrite (watchdog_reset_flag (run_writes ws m)).
  set (boot := watchdog_reset (run_writes ws m)).
  change (stm32_get_backup_home boot out1) with (stored_home boot).
  change (stm32_get_attitude boot out2) with (stored_attitude boot).
  subst boot. rewrite stored_home_reset, stored_attitude_reset.
  rewrite stored_home_run, stored_attitude_run.
  split; intros ->; reflexivity.
Qed.

Lemma backup_round_trip_witness :
  let boot := watchdog_reset (run_writes flight_history (power_cycle stale_region)) in
  last_home flight_history = Some (-353632611, 1491652305, 58410)
  ∧ last_attitude flight_history = Some (1200, -350, 27000)
  ∧ get_backup_home_state boot (0, 0, 0) = (true, (-353632611, 1491652305, 58410))
  ∧ get_backup_attitude boot (0, 0, 0) = (true, (1200, -350, 27000)).
Proof.
  intros boot.
  destruct (backup_round_trip (power_cycle stale_region) flight_history
              (-353632611, 1491652305, 58410) (1200, -350, 27000)
              (0, 0, 0) (0, 0, 0)) as (_ & Hhome & Hatt).
  split; [reflexivity|]. split; [reflexivity|].
  split; [apply Hhome | apply Hatt]; reflexivity.
Defined.

Lemma backup_absent_without_watchdog_witness :
  was_watchdog_reset (power_cycle stale_region) = false
  ∧ (get_backup_home_state (power_cycle stale_region) (1, 2, 3)).1 = false
  ∧ (get_backup_attitude (power_cycle stale_region) (4, 5, 6)).1 = false.
Proof.
  split; [reflexivity|].
  apply (backup_absent_without_watchdog (power_cycle stale_region)). reflexivity.
Defined.

Lemma backup_getters_keep_outputs_witness :
  was_watchdog_reset (power_cycle stale_region) = false
  ∧ get_backup_home_state (power_cycle stale_region) (1, 2, 3) = (false, (1, 2, 3))
  ∧ get_backup_attitude (power_cycle stale_region) (4, 5, 6) = (false, (4, 5, 6)).
Proof.
  split; [reflexivity|].
  apply (backup_getters_keep_outputs (power_cycle stale_region)). reflexivity.
Defined.

(** *** Comparing the image with the flash *)

Lemma byte_to_N_inj (b1 b2 : byte) : Byte.to_N b1 = Byte.to_N b2 → b1 = b2.
Proof.
  intros Heq. pose proof (Byte.of_to_N b1) as H1.
  rewrite Heq, Byte.of_to_N in H1. congruence.
Qed.

(** [memcmp] answers zero exactly when the first [n] bytes agree. *)
Lemma memcmp_zero_iff (n : nat) (s1 s2 : list byte) :
  (n ≤ length s1)%nat → (n ≤ length s2)%nat →
  memcmp s1 s2 n = 0 ↔ take n s1 = take n s2.
Proof.
  revert s1 s2. induction n as [|n IH]; intros s1 s2 H1 H2.
  - destruct s1, s2; simpl; split; reflexivity.
  - destruct s1 as [|b1 t1]; [simpl in H1; lia|].
    destruct s2 as [|b2 t2]; [simpl in H2; lia|].
    simpl in *. destruct (Byte.eqb b1 b2) eqn:Hb.
    + apply Byte.byte_dec_bl in Hb as ->.
      rewrite IH by lia. split; [intros ->; reflexivity | now intros [=]].
    + apply Byte.eqb_false in Hb. split.
      * intros Hz. exfalso. apply Hb, byte_to_N_inj. lia.
      * intros [=]. contradiction.
Qed.

Section UpdaterFacts.
Context {F : Type} `{!FlashDriver F}.
Implicit Types (w : @World F) (f : F).

Lemma read_flash_length f (addr : Z) (n : nat) : length (read_flash f addr n) = n.
Proof. unfold read_flash. now rewrite length_fmap, length_seq. Qed.

(** The image equals the flash content exactly when [memcmp] answers 0. *)
Lemma memcmp_read_flash f (addr : Z) (data : list byte) :
  memcmp data (read_flash f addr (length data)) (length data) = 0
  ↔ read_flash f addr (length data) = data.
Proof.
  rewrite memcmp_zero_iff by (rewrite ?read_flash_length; lia).
  rewrite !take_ge by (rewrite ?read_flash_length; lia). split; congruence.
Qed.

(** *** The retry loop *)

(** Every run of the loop from counter [i] is [k] failed attempts followed
    either by a successful one, which returns true after freeing the buffer
    and clearing the stall allowance, or by the end of the loop at
    [i + k = max_attempts]. *)
Lemma write_attempts_cases (fuel : nat) (i addr fw n : Z) w :
  0 ≤ i ≤ max_attempts → (Z.to_nat (max_attempts - i) < fuel)%nat →
  let data := take (Z.to_nat n) (deref w fw) in
  ∃ (k : nat) f',
    (i + Z.of_nat k < max_attempts
     ∧ (∃ f0, write addr data f0 = (true, f'))
     ∧ write_attempts fuel i addr fw n w =
         (LoopReturned true,
          mkWorld 0 (clock_ms w + 1000 * Z.of_nat k) (romfs w) (delete fw (heap w)) f',
          failed_attempts addr data i k
            ++ [EvFlashWrite addr data true; EvPrintf "Flash OK\n" [];
                EvFree fw; EvExpectDelay 0]))
    ∨ (i + Z.of_nat k = max_attempts
       ∧ write_attempts fuel i addr fw n w =
           (LoopFellThrough,
            mkWorld (expect_delay w) (clock_ms w + 1000 * Z.of_nat k) (romfs w) (heap w) f',
            failed_attempts addr data i k)).
Proof.
  revert i w. induction fuel as [|fuel IH]; intros i w Hi Hfuel data.
  { lia. }
  simpl. case_bool_decide as Hlt.
  - unfold mbind, M_bind, flash_write. fold data.
    destruct (write addr data (flash w)) as [ok f1] eqn:Hw. destruct ok; simpl.
    + exists 0%nat, f1. left. split; [lia|]. split; [eauto|].
      rewrite Z.add_0_r. reflexivity.
    + assert (Hu : uint8 (i + 1) = i + 1).
      { unfold uint8, max_attempts in *. apply Z.mod_small. lia. }
      rewrite Hu.
      set (w1 := mkWorld (expect_delay w) (clock_ms w + 1000) (romfs w) (heap w) f1).
      destruct (IH (i + 1) w1) as (k & f' & [(Hk & Hacc & Hrun) | [Hk Hrun]]);
        [lia | lia | ..]; exists (S k), f'; [left | right];
        (split; [lia|]); [split; [exact Hacc|] |];
        simpl in Hrun; rewrite Hrun; simpl;
        replace (clock_ms w + 1000 + 1000 * Z.of_nat k)
          with (clock_ms w + 1000 * Z.of_nat (S k)) by lia; reflexivity.
  - exists 0%nat, (flash w). right. split; [lia|].
    rewrite Z.add_0_r. destruct w; reflexivity.
Qed.

(** *** The updater, path by path *)

#[local] Arguments write_attempts : simpl never.

Lemma fetched_ptr_fresh w : fetched_ptr w ≠ 0 ∧ heap w !! fetched_ptr w = None.
Proof.
  unfold fetched_ptr.
  pose proof (is_fresh ({[0]} ∪ dom (heap w))) as Hfresh.
  split.
  - intros Heq. apply Hfresh. rewrite Heq. set_solver.
  - apply not_elem_of_dom. set_solver.
Qed.

(** Every call of [flash_bootloader] returns along one of the five paths,
    with exactly the calls of that path; it leaves the stall allowance at
    0 and the resource store and the heap as they were. *)
Lemma flash_bootloader_paths w :
  ∃ (p : ReturnPath) w',
    flash_bootloader w =
      (Some (path_result p), w',
       path_events p (fetched_ptr w) (target_addr w)
         (default [] (romfs w !! fw_name))
         (compare_image w (default [] (romfs w !! fw_name))))
    ∧ path_taken p w w'
    ∧ expect_delay w' = 0 ∧ romfs w' = romfs w ∧ heap w' = heap w.
Proof.
  destruct (fetched_ptr_fresh w) as [Hnz Hnew].
  unfold flash_bootloader, mbind, M_bind, find_decompress. simpl.
  destruct (romfs w !! fw_name) as [data|] eqn:Hrom; simpl.
  2:{ exists FetchFail. eexists. split; [reflexivity|]. simpl. auto. }
  change (fresh ({[0]} ∪ dom (heap w))) with (fetched_ptr w).
  rewrite (bool_decide_eq_false_2 _ Hnz).
  unfold memcmp_flash, deref. simpl.
  rewrite lookup_insert_eq, Nat2Z.id. simpl.
  change (memcmp data _ _) with (compare_image w data).
  change (getpageaddr (flash w) 0) with (target_addr w).
  case_bool_decide as Hcmp.
  { exists CompareEqual. eexists. rewrite Hcmp. split; [reflexivity|]. simpl.
    rewrite delete_insert_eq, delete_id by done. eauto 10. }
  unfold flash_erasepage. simpl.
  destruct (erasepage 0 (flash w)) as [ok f1] eqn:Herase. destruct ok; simpl.
  2:{ exists EraseFail. eexists. split; [reflexivity|]. simpl.
      rewrite delete_insert_eq, delete_id by done. eauto 10. }
  set (w1 := mkWorld 5000 _ _ _ f1).
  destruct (write_attempts_cases (S (Z.to_nat max_attempts)) 0 (target_addr w)
              (fetched_ptr w) (Z.of_nat (length data)) w1)
    as (k & f' & [(Hk & Hacc & Hrun) | [Hk Hrun]]);
    [unfold max_attempts; lia | unfold max_attempts; lia | ..];
    unfold deref in *; simpl in *;
    rewrite lookup_insert_eq, Nat2Z.id in *; simpl in *;
    rewrite take_ge in * by lia; rewrite Hrun; simpl;
    rewrite delete_insert_eq, delete_id by done.
  - exists (ProgramSuccess k). eexists. rewrite app_nil_r.
    split; [reflexivity|]. simpl. rewrite Herase.
    repeat split; try done. exists data. repeat split; done || lia.
  - assert (Hten : k = Z.to_nat max_attempts) by lia. subst k.
    exists ProgramExhausted. eexists. split; [reflexivity|]. simpl.
    rewrite Herase. repeat split; try done. exists data. repeat split; done.
Qed.

(** *** Views of the failed attempts *)

Lemma freed_failed_attempts (addr : Z) (data : list byte) (i : Z) (k : nat) :
  omap freed (failed_attempts addr data i k) = [].
Proof. revert i. induction k as [|k IH]; intros i; simpl; auto. Qed.

Lemma failed_attempts_no_expect_delay (addr : Z) (data : list byte) (i : Z) (k : nat) :
  Forall (λ e, is_expect_delay e = false) (failed_attempts addr data i k).
Proof.
  revert i. induction k as [|k IH]; intros i; simpl; repeat constructor. apply IH.
Qed.

(** On a driver whose [write] never succeeds, no attempt of a run
    succeeds. *)
Lemma dead_driver_attempts_fail w :
  (∀ (a : Z) (d : list byte) f, (write a d f).1 = false) →
  Forall (λ e, write_succeeded e = false) (calls (flash_bootloader w)).
Proof.
  intros Hdead.
  destruct (flash_bootloader_paths w) as (p & w' & Hrun & Htaken & _).
  rewrite Hrun. unfold calls. simpl.
  destruct p; simpl; [repeat constructor .. |].
  exfalso. simpl in Htaken. destruct Htaken as (d & _ & _ & _ & _ & [f0 Hacc] & _).
  specialize (Hdead (target_addr w) d f0). rewrite Hacc in Hdead. discriminate.
Qed.

(** *** The claims about the updater *)

(** C3: when the image differs from the flash, the erase succeeds and every
    programming attempt of the run fails, the run consists of exactly ten
    failed attempts, each followed by a backoff of 1000 ms, and the call
    returns false. *)
Theorem retry_bound w (data : list byte) :
  romfs w !! fw_name = Some data →
  read_flash (flash w) (target_addr w) (length data) ≠ data →
  (erasepage 0 (flash w)).1 = true →
  Forall (λ e, write_succeeded e = false) (calls (flash_bootloader w)) →
  returned (flash_bootloader w) = Some false
  ∧ omap retry_step (calls (flash_bootloader w))
    = mjoin (replicate 10 [Attempt false; Backoff 1000])
  ∧ clock_ms (final_world (flash_bootloader w)) = clock_ms w + 10 * 1000.
Proof.
  intros Hrom Hdiff Herase Hfail.
  destruct (flash_bootloader_paths w) as (p & w' & Hrun & Htaken & _).
  rewrite Hrun in *. rewrite Hrom in *. unfold returned, calls, final_world in *.
  simpl in *. destruct p; simpl in Htaken.
  - destruct Htaken as [Hnone _]. congruence.
  - destruct Htaken as (d & Hd & Hcmp & _). simplify_eq.
    apply memcmp_read_flash in Hcmp. contradiction.
  - destruct Htaken as (d & _ & _ & He & _). rewrite He in Herase. discriminate.
  - destruct Htaken as (d & _ & _ & _ & Hclock).
    split; [reflexivity|]. split; [reflexivity|]. exact Hclock.
  - exfalso. do 6 (apply Forall_cons_1 in Hfail as [_ Hfail]).
    apply Forall_app in Hfail as [_ Hfail].
    apply Forall_cons_1 in Hfail as [Hok _]. discriminate Hok.
Qed.

(** C4: every call first sets the stall allowance to a positive value, so
    before any erase or write, makes no other [expect_delay_ms] call until
    its last call, which resets the allowance to 0, and returns with the
    allowance at 0, whichever of the five paths it takes. *)
Theorem stall_allowance w :
  ∃ (ms : Z) (mid : list Event),
    0 < ms
    ∧ calls (flash_bootloader w) = EvExpectDelay ms :: mid ++ [EvExpectDelay 0]
    ∧ Forall (λ e, is_expect_delay e = false) mid
    ∧ expect_delay (final_world (flash_bootloader w)) = 0
    ∧ is_Some (returned (flash_bootloader w)).
Proof.
  destruct (flash_bootloader_paths w) as (p & w' & Hrun & _ & Hzero & _).
  rewrite Hrun. unfold returned, calls, final_world. simpl.
  exists 5000. destruct p; simpl.
  - eexists [_; _]. repeat split; eauto; repeat constructor.
  - eexists [_; _; _; _]. repeat split; eauto; repeat constructor.
  - eexists [_; _; _; _; _; _]. repeat split; eauto; repeat constructor.
  - eexists ([_; _; _; _; _] ++ failed_attempts _ _ 0 10 ++ [_; _]).
    split; [done|]. split; [reflexivity|]. split; [|eauto].
    repeat constructor.
  - eexists ([_; _; _; _; _] ++ failed_attempts _ _ 0 k ++ [_; _; _]).
    split; [done|]. split.
    { simpl. rewrite <- !app_assoc. reflexivity. }
    split; [|eauto]. repeat apply Forall_cons_2; try reflexivity.
    apply Forall_app_2; [apply failed_attempts_no_expect_delay|].
    repeat constructor.
Qed.

(** One call on an up-to-date flash short-circuits and keeps the resource
    store. *)
Lemma up_to_date_call w (data : list byte) :
  romfs w !! fw_name = Some data →
  read_flash (flash w) (target_addr w) (length data) = data →
  short_circuits w (flash_bootloader w)
  ∧ romfs (final_world (flash_bootloader w)) = romfs w.
Proof.
  intros Hrom Hsame. apply memcmp_read_flash in Hsame.
  destruct (flash_bootloader_paths w) as (p & w' & Hrun & Htaken & _ & Hromfs & Hheap).
  rewrite Hrun. rewrite Hrom in *. unfold short_circuits, returned, calls, final_world.
  simpl in *. destruct p; simpl in Htaken.
  - destruct Htaken as [Hnone _]. congruence.
  - destruct Htaken as (d & _ & _ & Hflash & _).
    repeat split; try done; repeat constructor.
  - destruct Htaken as (d & Hd & Hcmp & _).
    replace d with data in Hcmp by congruence. destruct (Hcmp Hsame).
  - destruct Htaken as (d & Hd & Hcmp & _).
    replace d with data in Hcmp by congruence. destruct (Hcmp Hsame).
  - destruct Htaken as (d & Hd & Hcmp & _).
    replace d with data in Hcmp by congruence. destruct (Hcmp Hsame).
Qed.

(** C5: when the fetched image is byte for byte the content of the flash
    at the target address, the call returns true, frees the buffer it
    fetched and makes no erase and no write; the flash is unchanged, and a
    second call right after does the same. *)
Theorem up_to_date_short_circuit w (data : list byte) :
  romfs w !! fw_name = Some data →
  read_flash (flash w) (target_addr w) (length data) = data →
  short_circuits w (flash_bootloader w)
  ∧ short_circuits (final_world (flash_bootloader w))
      (flash_bootloader (final_world (flash_bootloader w))).
Proof.
  intros Hrom Hsame.
  destruct (up_to_date_call w data Hrom Hsame) as [Hfirst Hromfs].
  split; [exact Hfirst|].
  destruct Hfirst as (_ & _ & _ & _ & Hflash).
  apply (up_to_date_call _ data).
  - now rewrite Hromfs.
  - unfold target_addr. now rewrite Hflash.
Qed.

(** C8: when the resource store does not hold the bootloader image, the
    call returns false and makes no erase and no write; the flash is
    unchanged. *)
Theorem missing_image_no_flash_change w :
  romfs w !! fw_name = None →
  returned (flash_bootloader w) = Some false
  ∧ Forall (λ e, is_flash_op e = false) (calls (flash_bootloader w))
  ∧ flash (final_world (flash_bootloader w)) = flash w.
Proof.
  intros Hrom.
  destruct (flash_bootloader_paths w) as (p & w' & Hrun & Htaken & _).
  rewrite Hrun. unfold returned, calls, final_world. simpl.
  destruct p; simpl in Htaken;
    try (destruct Htaken as (d & Hd & _); congruence).
  destruct Htaken as (_ & Hflash & _).
  repeat split; try done; repeat constructor.
Qed.

(** C9: when the image is found, the call returns, and among its calls
    there is exactly one [free], of the buffer that [find_decompress]
    returned; no block is left on the heap, whichever path is taken. *)
Theorem image_freed_once w (data : list byte) :
  romfs w !! fw_name = Some data →
  is_Some (returned (flash_bootloader w))
  ∧ (find_decompress fw_name w).1.1 = (fetched_ptr w, Z.of_nat (length data))
  ∧ fetched_ptr w ≠ 0
  ∧ omap freed (calls (flash_bootloader w)) = [fetched_ptr w]
  ∧ heap (final_world (flash_bootloader w)) = heap w.
Proof.
  intros Hrom.
  destruct (flash_bootloader_paths w) as (p & w' & Hrun & Htaken & _ & _ & Hheap).
  destruct (fetched_ptr_fresh w) as [Hnz _].
  rewrite Hrun. unfold returned, calls, final_world, find_decompress.
  rewrite Hrom. simpl. split; [eauto|]. split; [reflexivity|]. split; [done|].
  split; [|done]. destruct p; simpl in *.
  - destruct Htaken as [Hnone _]. congruence.
  - reflexivity.
  - reflexivity.
  - reflexivity.
  - rewrite omap_app, freed_failed_attempts. reflexivity.
Qed.
End UpdaterFacts.

(** *** The updater on the scripted driver *)

(** Each of the five paths is taken by some run. *)
Example path_fetch_fail :
  returned (flash_bootloader (sim_world_no_image (replicate 8 x00))) = Some false
  ∧ calls (flash_bootloader (sim_world_no_image (replicate 8 x00)))
    = path_events FetchFail 0 0 [] 0.
Proof. split; vm_compute; reflexivity. Qed.

Example path_compare_equal :
  calls (flash_bootloader (sim_world (image ++ [xff; xff]) [] []))
  = path_events CompareEqual 1 sim_base image 0.
Proof. vm_compute. reflexivity. Qed.

Example path_erase_fail :
  calls (flash_bootloader (sim_world (replicate 8 x00) [false] []))
  = path_events EraseFail 1 sim_base image 170.
Proof. vm_compute. reflexivity. Qed.

Example path_program_exhausted :
  calls (flash_bootloader (sim_world (replicate 8 x00) [] (replicate 10 false)))
  = path_events ProgramExhausted 1 sim_base image 170.
Proof. vm_compute. reflexivity. Qed.

(** Retry recovery: three failed attempts, then success on the fourth, and
    no further attempt. *)
Example path_program_success_fourth :
  returned (flash_bootloader (sim_world (replicate 8 x00) [] [false; false; false; true]))
  = Some true
  ∧ calls (flash_bootloader (sim_world (replicate 8 x00) [] [false; false; false; true]))
    = path_events (ProgramSuccess 3) 1 sim_base image 170.
Proof. split; vm_compute; reflexivity. Qed.

(** A fresh flash is programmed at the first attempt, and the next call
    finds it up to date. *)
Example flash_then_up_to_date :
  let run1 := flash_bootloader (sim_world (replicate 8 x00) [] []) in
  let run2 := flash_bootloader (final_world run1) in
  calls run1 = path_events (ProgramSuccess 0) 1 sim_base image 170
  ∧ sim_mem (flash (final_world run1)) = image ++ [xff; xff; xff; xff]
  ∧ calls run2 = path_events CompareEqual 1 sim_base image 0
  ∧ returned run2 = Some true.
Proof. repeat split; vm_compute; reflexivity. Qed.

Lemma retry_bound_witness :
  let w := sim_world (replicate 8 x00) [] (replicate 10 false) in
  romfs w !! fw_name = Some image
  ∧ read_flash (flash w) (target_addr w) (length image) ≠ image
  ∧ (erasepage 0 (flash w)).1 = true
  ∧ Forall (λ e, write_succeeded e = false) (calls (flash_bootloader w))
  ∧ returned (flash_bootloader w) = Some false
  ∧ omap retry_step (calls (flash_bootloader w))
    = mjoin (replicate 10 [Attempt false; Backoff 1000])
  ∧ clock_ms (final_world (flash_bootloader w)) = clock_ms w + 10 * 1000.
Proof.
  intros w.
  assert (H1 : romfs w !! fw_name = Some image) by (vm_compute; reflexivity).
  assert (H2 : read_flash (flash w) (target_addr w) (length image) ≠ image)
    by (vm_compute; discriminate).
  assert (H3 : (erasepage 0 (flash w)).1 = true) by reflexivity.
  assert (H4 : Forall (λ e, write_succeeded e = false) (calls (flash_bootloader w)))
    by (vm_compute; repeat constructor).
  repeat (split; [assumption|]).
  exact (retry_bound w image H1 H2 H3 H4).
Defined.

Lemma up_to_date_short_circuit_witness :
  let w := sim_world (image ++ [xff; xff]) [] [] in
  romfs w !! fw_name = Some image
  ∧ read_flash (flash w) (target_addr w) (length image) = image
  ∧ short_circuits w (flash_bootloader w)
  ∧ short_circuits (final_world (flash_bootloader w))
      (flash_bootloader (final_world (flash_bootloader w))).
Proof.
  intros w.
  assert (H1 : romfs w !! fw_name = Some image) by (vm_compute; reflexivity).
  assert (H2 : read_flash (flash w) (target_addr w) (length image) = image)
    by (vm_compute; reflexivity).
  repeat (split; [assumption|]).
  exact (up_to_date_short_circuit w image H1 H2).
Defined.

Lemma missing_image_no_flash_change_witness :
  let w := sim_world_no_image (replicate 8 x00) in
  romfs w !! fw_name = None
  ∧ returned (flash_bootloader w) = Some false
  ∧ Forall (λ e, is_flash_op e = false) (calls (flash_bootloader w))
  ∧ flash (final_world (flash_bootloader w)) = flash w.
Proof.
  intros w.
  assert (H1 : romfs w !! fw_name = None) by (vm_compute; reflexivity).
  split; [assumption|].
  exact (missing_image_no_flash_change w H1).
Defined.

Lemma image_freed_once_witness :
  let w := sim_world (replicate 8 x00) [false] [] in
  romfs w !! fw_name = Some image
  ∧ is_Some (returned (flash_bootloader w))
  ∧ (find_decompress fw_name w).1.1 = (fetched_ptr w, Z.of_nat (length image))
  ∧ fetched_ptr w ≠ 0
  ∧ omap freed (calls (flash_bootloader w)) = [fetched_ptr w]
  ∧ heap (final_world (flash_bootloader w)) = heap w.
Proof.
  intros w.
  assert (H1 : romfs w !! fw_name = Some image) by (vm_compute; reflexivity).
  split; [assumption|].
  exact (image_freed_once w image H1).
Defined.

(** *** More on the updater: schedule, order of flash operations, outcome *)

Section UpdaterOutcome.
Context {F : Type} `{!FlashDriver F}.
Implicit Types (w : @World F) (f : F).

Lemma failed_attempts_retry_steps (addr : Z) (data : list byte) (i : Z) (k : nat) :
  omap retry_step (failed_attempts addr data i k)
  = mjoin (replicate k [Attempt false; Backoff 1000]).
Proof.
  revert i. induction k as [|k IH]; intros i; simpl; [reflexivity|].
  now rewrite IH.
Qed.

Lemma failed_attempts_all_fail (addr : Z) (data : list byte) (i : Z) (k : nat) :
  Forall (λ e, write_succeeded e = false) (failed_attempts addr data i k).
Proof.
  revert i. induction k as [|k IH]; intros i; simpl; repeat constructor. apply IH.
Qed.

Lemma failed_attempts_flash_ops (addr : Z) (data : list byte) (i : Z) (k : nat) :
  List.filter is_flash_op (failed_attempts addr data i k)
  = replicate k (EvFlashWrite addr data false).
Proof.
  revert i. induction k as [|k IH]; intros i; simpl; [reflexivity|].
  now rewrite IH.
Qed.

(** X1: in every run the programming attempts and backoffs are [k] failed
    attempts, each followed by a backoff of 1000 ms, with [k] at most 10,
    then possibly one successful attempt, which is the last and comes
    before the tenth failure; the call spends [1000 * k] ms in [delay]. *)
Theorem retry_schedule w :
  ∃ (k : nat) (final : list RetryStep),
    (k ≤ 10)%nat
    ∧ (final = [] ∨ (final = [Attempt true] ∧ (k < 10)%nat))
    ∧ omap retry_step (calls (flash_bootloader w))
      = mjoin (replicate k [Attempt false; Backoff 1000]) ++ final
    ∧ clock_ms (final_world (flash_bootloader w)) = clock_ms w + 1000 * Z.of_nat k.
Proof.
  destruct (flash_bootloader_paths w) as (p & w' & Hrun & Htaken & _).
  rewrite Hrun. unfold calls, final_world. simpl.
  destruct p; simpl in Htaken.
  - exists 0%nat, []. destruct Htaken as (_ & _ & ->). repeat split; auto; lia.
  - exists 0%nat, []. destruct Htaken as (d & _ & _ & _ & ->). repeat split; auto; lia.
  - exists 0%nat, []. destruct Htaken as (d & _ & _ & _ & ->). repeat split; auto; lia.
  - exists 10%nat, []. destruct Htaken as (d & _ & _ & _ & ->). repeat split; auto.
  - exists k, [Attempt true]. destruct Htaken as (d & _ & _ & _ & Hk & _ & ->).
    unfold max_attempts in Hk. split; [lia|]. split; [right; split; [done | lia]|].
    split; [|reflexivity]. simpl. rewrite omap_app, failed_attempts_retry_steps.
    reflexivity.
Qed.

(** X2: the call returns true exactly when the image was found and equals
    the flash content, or some programming attempt of the run succeeded. *)
Theorem returns_true_iff w :
  returned (flash_bootloader w) = Some true
  ↔ (∃ data, romfs w !! fw_name = Some data
             ∧ read_flash (flash w) (target_addr w) (length data) = data)
    ∨ Exists (λ e, write_succeeded e = true) (calls (flash_bootloader w)).
Proof.
  destruct (flash_bootloader_paths w) as (p & w' & Hrun & Htaken & _).
  rewrite Hrun. unfold returned, calls. simpl.
  assert (Hno : ∀ l, Forall (λ e, write_succeeded e = false) l →
                     ¬ Exists (λ e, write_succeeded e = true) l).
  { intros l Hall Hex. apply Exists_exists in Hex as (e & Hin & He).
    rewrite Forall_forall in Hall. specialize (Hall e Hin). congruence. }
  destruct p; simpl in Htaken; simpl.
  - destruct Htaken as (Hnone & _). rewrite Hnone. split; [discriminate|].
    intros [(d & Hd & _) | Hex]; [discriminate|].
    exfalso. revert Hex. apply Hno. repeat constructor.
  - destruct Htaken as (d & Hd & Hcmp & _). rewrite Hd. simpl. split; [|done].
    intros _. left. exists d. split; [done|]. now apply memcmp_read_flash.
  - destruct Htaken as (d & Hd & Hcmp & _). split; [discriminate|].
    intros [(d' & Hd' & Hsame) | Hex].
    + exfalso. apply Hcmp. replace d with d' by congruence.
      now apply memcmp_read_flash.
    + exfalso. revert Hex. apply Hno. repeat constructor.
  - destruct Htaken as (d & Hd & Hcmp & _). split; [discriminate|].
    intros [(d' & Hd' & Hsame) | Hex].
    + exfalso. apply Hcmp. replace d with d' by congruence.
      now apply memcmp_read_flash.
    + exfalso. revert Hex. apply Hno. repeat constructor.
  - split; [|done]. intros _. right.
    do 6 apply Exists_cons_tl. apply Exists_app. right. now left.
Qed.

(** X3: the erase and write calls of a run are none at all, or one failed
    erase of page 0 and nothing else, or one successful erase of page 0
    followed only by writes, each of the whole image at the address of
    page 0, of which only the last can have succeeded. *)
Theorem flash_ops_order w :
  let data := default [] (romfs w !! fw_name) in
  let attempt ok := EvFlashWrite (target_addr w) data ok in
  List.filter is_flash_op (calls (flash_bootloader w)) = []
  ∨ List.filter is_flash_op (calls (flash_bootloader w)) = [EvErasePage 0 false]
  ∨ ∃ (k : nat) (final : list Event),
      (k ≤ 10)%nat ∧ (final = [] ∨ final = [attempt true])
      ∧ List.filter is_flash_op (calls (flash_bootloader w))
        = EvErasePage 0 true :: replicate k (attempt false) ++ final.
Proof.
  intros data attempt.
  destruct (flash_bootloader_paths w) as (p & w' & Hrun & Htaken & _).
  rewrite Hrun. unfold calls. simpl. fold data.
  destruct p; simpl.
  - left. reflexivity.
  - left. reflexivity.
  - right. left. reflexivity.
  - right. right. exists 10%nat, []. split; [lia|]. split; [auto|]. reflexivity.
  - right. right. exists k, [attempt true].
    simpl in Htaken. destruct Htaken as (d & _ & _ & _ & Hk & _).
    unfold max_attempts in Hk. split; [lia|]. split; [auto|].
    rewrite List.filter_app, failed_attempts_flash_ops. reflexivity.
Qed.

(** X4: on a driver whose successful write of the image at the target
    address makes the flash read back as the image, a call that returns
    true leaves the flash holding the image at the target address. *)
Theorem success_means_programmed w (data : list byte) :
  (∀ f f', write (target_addr w) data f = (true, f') →
           read_flash f' (target_addr w) (length data) = data) →
  romfs w !! fw_name = Some data →
  returned (flash_bootloader w) = Some true →
  read_flash (flash (final_world (flash_bootloader w))) (target_addr w) (length data)
  = data.
Proof.
  intros Hlaw Hrom.
  destruct (flash_bootloader_paths w) as (p & w' & Hrun & Htaken & _).
  rewrite Hrun. unfold returned, final_world. simpl. intros Hret.
  destruct p; simpl in Htaken, Hret; try discriminate.
  - destruct Htaken as (d & Hd & Hcmp & Hflash & _).
    replace d with data in Hcmp by congruence.
    rewrite Hflash. now apply memcmp_read_flash.
  - destruct Htaken as (d & Hd & _ & _ & _ & [f0 Hacc] & _).
    replace d with data in Hacc by congruence. exact (Hlaw f0 _ Hacc).
Qed.

(** X5: on such a driver, whose page address moreover does not depend on
    its state, the call right after one that returned true finds the flash
    up to date: it returns true, frees its buffer and makes no erase and no
    write. *)
Theorem second_call_after_success w (data : list byte) :
  (∀ f f', write (target_addr w) data f = (true, f') →
           read_flash f' (target_addr w) (length data) = data) →
  (∀ f, getpageaddr f 0 = getpageaddr (flash w) 0) →
  romfs w !! fw_name = Some data →
  returned (flash_bootloader w) = Some true →
  short_circuits (final_world (flash_bootloader w))
    (flash_bootloader (final_world (flash_bootloader w))).
Proof.
  intros Hlaw Haddr Hrom.
  destruct (flash_bootloader_paths w) as (p & w' & Hrun & Htaken & _ & Hromfs & _).
  rewrite Hrun. unfold returned, final_world. simpl. intros Hret.
  assert (Htarget : target_addr w' = target_addr w) by apply Haddr.
  apply (up_to_date_call w' data); [now rewrite Hromfs|]. rewrite Htarget.
  destruct p; simpl in Htaken, Hret; try discriminate.
  - destruct Htaken as (d & Hd & Hcmp & Hflash & _).
    replace d with data in Hcmp by congruence.
    rewrite Hflash. now apply memcmp_read_flash.
  - destruct Htaken as (d & Hd & _ & _ & _ & [f0 Hacc] & _).
    replace d with data in Hacc by congruence. exact (Hlaw f0 _ Hacc).
Qed.

(** X6: when the image is found, the [free] of the fetched buffer is the
    last call but one of the run, followed only by the reset of the stall
    allowance: nothing uses the buffer after it is freed. *)
Theorem free_is_last_use w (data : list byte) :
  romfs w !! fw_name = Some data →
  ∃ before : list Event,
    calls (flash_bootloader w) = before ++ [EvFree (fetched_ptr w); EvExpectDelay 0]
    ∧ omap freed before = [].
Proof.
  intros Hrom.
  destruct (flash_bootloader_paths w) as (p & w' & Hrun & Htaken & _).
  rewrite Hrun. unfold calls. simpl. destruct p; simpl in *.
  - destruct Htaken as [Hnone _]. congruence.
  - eexists [_; _; _; _]. split; reflexivity.
  - eexists [_; _; _; _; _; _]. split; reflexivity.
  - eexists ([_; _; _; _; _; _] ++ failed_attempts _ _ 0 10 ++ [_]).
    split; reflexivity.
  - eexists ([_; _; _; _; _; _] ++ failed_attempts _ _ 0 k ++ [_; _]).
    split.
    + simpl. rewrite <- !app_assoc. reflexivity.
    + simpl. rewrite omap_app, freed_failed_attempts. reflexivity.
Qed.
End UpdaterOutcome.

(** The scripted driver reads back what a successful write of the image at
    the start of page 0 stored, and its page addresses are fixed. *)
Lemma sim_write_reads_back (f f' : SimFlash) :
  write sim_base image f = (true, f') → read_flash f' sim_base (length image) = image.
Proof.
  unfold write, sim_flash, sim_write. intros [= Hok <-]. rewrite Hok.
  vm_compute. reflexivity.
Qed.

Lemma success_means_programmed_witness :
  let w := sim_world (replicate 8 x00) [] [false; true] in
  returned (flash_bootloader w) = Some true
  ∧ read_flash (flash (final_world (flash_bootloader w))) (target_addr w) (length image)
    = image.
Proof.
  intros w.
  assert (Hret : returned (flash_bootloader w) = Some true) by (vm_compute; reflexivity).
  split; [exact Hret|].
  apply (success_means_programmed w image).
  - exact sim_write_reads_back.
  - vm_compute; reflexivity.
  - exact Hret.
Defined.

Lemma second_call_after_success_witness :
  let w := sim_world (replicate 8 x00) [] [false; true] in
  returned (flash_bootloader w) = Some true
  ∧ short_circuits (final_world (flash_bootloader w))
      (flash_bootloader (final_world (flash_bootloader w))).
Proof.
  intros w.
  assert (Hret : returned (flash_bootloader w) = Some true) by (vm_compute; reflexivity).
  split; [exact Hret|].
  apply (second_call_after_success w image).
  - exact sim_write_reads_back.
  - intros f. reflexivity.
  - vm_compute; reflexivity.
  - exact Hret.
Defined.

Lemma free_is_last_use_witness :
  let w := sim_world (replicate 8 x00) [] [false; false; true] in
  romfs w !! fw_name = Some image
  ∧ ∃ before : list Event,
      calls (flash_bootloader w) = before ++ [EvFree (fetched_ptr w); EvExpectDelay 0]
      ∧ omap freed before = [].
Proof.
  intros w.
  assert (H1 : romfs w !! fw_name = Some image) by (vm_compute; reflexivity).
  split; [exact H1|]. exact (free_is_last_use w image H1).
Defined.

(** *** The system identifier *)

Section SystemId.
Local Open Scope nat_scope.
Implicit Types (s t buf board : list byte) (udid : nat → byte).

Lemma c_str_no_nul s : Forall (λ b, b ≠ x00) (c_str s).
Proof.
  induction s as [|b s IH]; simpl; [constructor|].
  destruct (Byte.eqb b x00) eqn:Hb; constructor; [|exact IH].
  now apply Byte.eqb_false in Hb.
Qed.

(** A text without NUL followed by a NUL is a C string with that text. *)
Lemma c_str_app_nul s t : Forall (λ b, b ≠ x00) s → c_str (s ++ x00 :: t) = s.
Proof.
  induction 1 as [|b s Hb _ IH]; simpl; [reflexivity|].
  destruct (Byte.eqb b x00) eqn:Heq.
  - apply Byte.byte_dec_bl in Heq. contradiction.
  - now rewrite IH.
Qed.

Lemma c_str_length_le s (i : nat) : s !! i = Some x00 → length (c_str s) ≤ i.
Proof.
  revert i. induction s as [|b s IH]; intros i Hi; [discriminate|].
  simpl. destruct (Byte.eqb b x00) eqn:Heq; simpl; [lia|].
  destruct i as [|i]; simpl in Hi.
  - injection Hi as ->. discriminate.
  - specialize (IH i Hi). lia.
Qed.

(** What [%s] prints of [board_name]: the board name cut at 13 characters. *)
Lemma c_str_board_name board :
  c_str (strncpy board 13 ++ [x00]) = take 13 (c_str board).
Proof.
  unfold strncpy. rewrite <- app_assoc.
  rewrite <- replicate_S_end, replicate_S.
  apply c_str_app_nul, Forall_take, c_str_no_nul.
Qed.

Lemma hex_digit_no_nul (n : nat) : hex_digit n ≠ x00.
Proof. unfold hex_digit. do 17 (destruct n as [|n]; [discriminate|]). destruct n; discriminate. Qed.

Lemma hex_digit_inj (n m : nat) : n < 16 → m < 16 → hex_digit n = hex_digit m → n = m.
Proof.
  intros Hn Hm.
  do 16 (destruct n as [|n];
         [do 16 (destruct m as [|m]; [reflexivity || discriminate|]); lia|]).
  lia.
Qed.

Lemma fmt_02X_inj (b1 b2 : byte) : fmt_02X b1 = fmt_02X b2 → b1 = b2.
Proof.
  unfold fmt_02X.
  pose proof (Byte.to_nat_bounded b1) as Hb1.
  pose proof (Byte.to_nat_bounded b2) as Hb2.
  pose proof (Nat.div_mod_eq (Byte.to_nat b1) 16) as Hdm1.
  pose proof (Nat.div_mod_eq (Byte.to_nat b2) 16) as Hdm2.
  assert (Hh1 : Byte.to_nat b1 / 16 < 16) by (apply Nat.Div0.div_lt_upper_bound; lia).
  assert (Hh2 : Byte.to_nat b2 / 16 < 16) by (apply Nat.Div0.div_lt_upper_bound; lia).
  assert (Hl1 : Byte.to_nat b1 mod 16 < 16) by (apply Nat.mod_upper_bound; lia).
  assert (Hl2 : Byte.to_nat b2 mod 16 < 16) by (apply Nat.mod_upper_bound; lia).
  revert Hdm1 Hdm2 Hh1 Hh2 Hl1 Hl2.
  generalize (Byte.to_nat b1 / 16) (Byte.to_nat b2 / 16)
             (Byte.to_nat b1 mod 16) (Byte.to_nat b2 mod 16).
  intros h1 h2 l1 l2 Hdm1 Hdm2 Hh1 Hh2 Hl1 Hl2 [= Hhi Hlo].
  apply hex_digit_inj in Hhi; [|assumption ..].
  apply hex_digit_inj in Hlo; [|assumption ..].
  assert (Heq : Byte.to_nat b1 = Byte.to_nat b2) by congruence.
  pose proof (Byte.of_to_nat b1) as H1. rewrite Heq, Byte.of_to_nat in H1. congruence.
Qed.

Lemma id_groups_length udid : length (id_groups udid) = 26.
Proof. reflexivity. Qed.

Lemma id_text_no_nul board udid : Forall (λ b, b ≠ x00) (id_text board udid).
Proof.
  unfold id_text, id_groups, fmt_02X.
  apply Forall_app_2; [apply Forall_take, c_str_no_nul|].
  repeat (apply Forall_cons_2; [first [apply hex_digit_no_nul | discriminate]|]).
  constructor.
Qed.

(** The function stores the text cut to 39 characters, a NUL, and a NUL in
    the last byte. *)
Lemma get_system_id_unfold board udid buf :
  get_system_id board udid buf
  = (true, <[39 := x00]> (snprintf buf 40 (id_text board udid))).
Proof.
  unfold get_system_id. rewrite c_str_board_name. reflexivity.
Qed.

Lemma snprintf_length buf s : length buf = 40 → length (snprintf buf 40 s) = 40.
Proof.
  intros Hbuf. unfold snprintf.
  change (40 - 1) with 39.
  rewrite !length_app, length_drop, length_take, Hbuf.
  change (length [x00]) with 1. lia.
Qed.

(** The C string left in the buffer is the text cut to 39 characters. *)
Lemma c_str_system_id board udid buf :
  c_str (get_system_id board udid buf).2 = take 39 (id_text board udid).
Proof.
  rewrite get_system_id_unfold. unfold snd, snprintf.
  change (40 - 1) with 39.
  assert (Hlen : length (take 39 (id_text board udid)) ≤ 39)
    by (rewrite length_take; lia).
  rewrite insert_app_r_alt by exact Hlen.
  assert (Hnul : ∀ (j : nat) t, ∃ t', <[j := x00]> (x00 :: t) = x00 :: t').
  { intros [|j] t; simpl; eauto. }
  destruct (Hnul (39 - length (take 39 (id_text board udid)))
                 (drop (length (take 39 (id_text board udid)) + 1) buf)) as [t' Ht'].
  simpl in Ht' |- *. rewrite Ht'.
  apply c_str_app_nul, Forall_take, id_text_no_nul.
Qed.

(** With a name of at most 12 characters the text has at most 39. *)
Lemma id_text_short board udid :
  length (c_str board) ≤ 12 →
  take 39 (id_text board udid) = c_str board ++ [x20] ++ id_groups udid.
Proof.
  intros Hname. unfold id_text. rewrite (take_ge (c_str board)) by lia.
  apply take_ge. rewrite length_app.
  change (length ([x20] ++ id_groups udid)) with 27. lia.
Qed.

(** X7: for a buffer of 40 bytes the call returns true, the buffer still
    has 40 bytes, its last byte is NUL, and the C string in it has at most
    39 characters, whatever the board name and the unique id. *)
Theorem system_id_terminated board udid buf :
  length buf = 40 →
  (get_system_id board udid buf).1 = true
  ∧ length (get_system_id board udid buf).2 = 40
  ∧ (get_system_id board udid buf).2 !! 39 = Some x00
  ∧ length (c_str (get_system_id board udid buf).2) ≤ 39.
Proof.
  intros Hbuf. rewrite get_system_id_unfold. unfold fst, snd.
  assert (Hlast : <[39 := x00]> (snprintf buf 40 (id_text board udid)) !! 39 = Some x00).
  { apply list_lookup_insert_eq. rewrite snprintf_length by exact Hbuf. lia. }
  split; [reflexivity|]. split; [|split; [exact Hlast|]].
  - now rewrite length_insert, snprintf_length.
  - apply c_str_length_le, Hlast.
Qed.

(** X8: for a board name of at most 12 characters the C string in the
    buffer is the name, a space and the three groups of eight hexadecimal
    digits: nothing is cut. *)
Theorem system_id_complete board udid buf :
  length (c_str board) ≤ 12 → length buf = 40 →
  c_str (get_system_id board udid buf).2 = c_str board ++ [x20] ++ id_groups udid.
Proof.
  intros Hname _. rewrite c_str_system_id. now apply id_text_short.
Qed.

(** X9: for a board name of 13 characters or more, the name is cut to 13
    characters and the last hexadecimal digit, the low half of byte 8 of
    the unique id, is missing from the C string in the buffer. *)
Theorem system_id_truncated board udid buf :
  13 ≤ length (c_str board) → length buf = 40 →
  c_str (get_system_id board udid buf).2
  = take 13 (c_str board) ++ [x20]
    ++ fmt_02X (udid 3) ++ fmt_02X (udid 2) ++ fmt_02X (udid 1) ++ fmt_02X (udid 0)
    ++ [x20]
    ++ fmt_02X (udid 7) ++ fmt_02X (udid 6) ++ fmt_02X (udid 5) ++ fmt_02X (udid 4)
    ++ [x20]
    ++ fmt_02X (udid 11) ++ fmt_02X (udid 10) ++ fmt_02X (udid 9)
    ++ [hex_digit (Byte.to_nat (udid 8) / 16)].
Proof.
  intros Hname _. rewrite c_str_system_id. unfold id_text.
  change 39 with (13 + 26).
  rewrite take_app_add' by (rewrite length_take; lia).
  reflexivity.
Qed.

(** X10: for a board name of at most 12 characters, two unique ids that
    give the same C string agree on their 12 bytes. *)
Theorem system_id_injective board udid udid' buf buf' :
  length (c_str board) ≤ 12 → length buf = 40 → length buf' = 40 →
  c_str (get_system_id board udid buf).2 = c_str (get_system_id board udid' buf').2 →
  ∀ i : nat, i < 12 → udid i = udid' i.
Proof.
  intros Hname _ _. rewrite !c_str_system_id, !id_text_short by exact Hname.
  intros Heq. apply app_inv_head in Heq. unfold id_groups in Heq.
  repeat (apply app_inj_1 in Heq as [? Heq]; [|reflexivity]).
  intros i Hi. do 12 (destruct i as [|i]; [now apply fmt_02X_inj|]). lia.
Qed.
End SystemId.

Lemma system_id_terminated_witness :
  length buf40 = 40%nat
  ∧ (get_system_id board_long udid_sample buf40).1 = true
  ∧ length (get_system_id board_long udid_sample buf40).2 = 40%nat
  ∧ (get_system_id board_long udid_sample buf40).2 !! 39%nat = Some x00
  ∧ (length (c_str (get_system_id board_long udid_sample buf40).2) ≤ 39)%nat.
Proof.
  split; [reflexivity|].
  apply (system_id_terminated board_long udid_sample buf40). reflexivity.
Defined.

Lemma system_id_complete_witness :
  (length (c_str board_fmuv3) ≤ 12)%nat ∧ length buf40 = 40%nat
  ∧ c_str (get_system_id board_fmuv3 udid_sample buf40).2
    = c_str board_fmuv3 ++ [x20] ++ id_groups udid_sample.
Proof.
  assert (H1 : (length (c_str board_fmuv3) ≤ 12)%nat) by (vm_compute; lia).
  split; [exact H1|]. split; [reflexivity|].
  apply (system_id_complete board_fmuv3 udid_sample buf40 H1). reflexivity.
Defined.

Lemma system_id_truncated_witness :
  (13 ≤ length (c_str board_long))%nat ∧ length buf40 = 40%nat
  ∧ c_str (get_system_id board_long udid_sample buf40).2
    = take 13 (c_str board_long) ++ [x20]
      ++ fmt_02X (udid_sample 3) ++ fmt_02X (udid_sample 2)
      ++ fmt_02X (udid_sample 1) ++ fmt_02X (udid_sample 0)
      ++ [x20]
      ++ fmt_02X (udid_sample 7) ++ fmt_02X (udid_sample 6)
      ++ fmt_02X (udid_sample 5) ++ fmt_02X (udid_sample 4)
      ++ [x20]
      ++ fmt_02X (udid_sample 11) ++ fmt_02X (udid_sample 10)
      ++ fmt_02X (udid_sample 9)
      ++ [hex_digit (Byte.to_nat (udid_sample 8) / 16)].
Proof.
  assert (H1 : (13 ≤ length (c_str board_long))%nat) by (vm_compute; lia).
  split; [exact H1|]. split; [reflexivity|].
  apply (system_id_truncated board_long udid_sample buf40 H1). reflexivity.
Defined.

(** With the long board name, two unique ids that differ in the low half
    of byte 8 get the same identifier. *)
Example system_id_collision :
  udid_sample 8%nat ≠ udid_sample' 8%nat
  ∧ get_system_id board_long udid_sample buf40
    = get_system_id board_long udid_sample' buf40.
Proof. split; [discriminate | vm_compute; reflexivity]. Qed.

Lemma system_id_injective_witness :
  (length (c_str board_fmuv3) ≤ 12)%nat
  ∧ c_str (get_system_id board_fmuv3 udid_sample buf40).2
    = c_str (get_system_id board_fmuv3 udid_sample_ff (replicate 40 x00)).2
  ∧ ∀ i : nat, (i < 12)%nat → udid_sample i = udid_sample_ff i.
Proof.
  assert (H1 : (length (c_str board_fmuv3) ≤ 12)%nat) by (vm_compute; lia).
  assert (H2 : c_str (get_system_id board_fmuv3 udid_sample buf40).2
               = c_str (get_system_id board_fmuv3 udid_sample_ff (replicate 40 x00)).2)
    by (vm_compute; reflexivity).
  split; [exact H1|]. split; [exact H2|].
  apply (system_id_injective board_fmuv3 udid_sample udid_sample_ff buf40
           (replicate 40 x00) H1); [reflexivity | reflexivity | exact H2].
Defined.

(** *** The reset classifier, composed with the getters *)

(** X11: when [was_watchdog_armed] or [was_watchdog_safety_off] answers
    true, both getters return true: a caller that sees either flag can
    restore the home position and the attitude. *)
Theorem watchdog_flags_give_backup {MCU : Type} `{!Stm32Util MCU} (m : MCU)
    (home att : triple) :
  was_watchdog_armed m = true ∨ was_watchdog_safety_off m = true →
  (get_backup_home_state m home).1 = true ∧ (get_backup_attitude m att).1 = true.
Proof.
  unfold was_watchdog_armed, was_watchdog_safety_off.
  unfold get_backup_home_state, get_backup_attitude, was_watchdog_reset.
  intros [H | H]; apply andb_true_iff in H as [-> _]; split; reflexivity.
Qed.

Lemma watchdog_flags_give_backup_witness :
  let boot := watchdog_reset (run_writes flight_history (power_cycle stale_region)) in
  (was_watchdog_armed boot = true ∨ was_watchdog_safety_off boot = true)
  ∧ (get_backup_home_state boot (0, 0, 0)).1 = true
  ∧ (get_backup_attitude boot (0, 0, 0)).1 = true.
Proof.
  intros boot.
  assert (H1 : was_watchdog_armed boot = true ∨ was_watchdog_safety_off boot = true)
    by (left; reflexivity).
  split; [exact H1|]. exact (watchdog_flags_give_backup boot (0, 0, 0) (0, 0, 0) H1).
Defined.

(** *** The IMU heater *)

Section HeaterFacts.
Context {R : Type} `{!FloatOps R}.
Variable heater_built : bool.
Variable count_modulus : Z.
Implicit Types (h : @Heater R) (env : ImuEnv) (samples : list (R * ImuEnv)).

(** One call either sets no duty cycle and keeps the time of the last
    update, or sets one at least 1000 ms after the last update and records
    its clock value. *)
Lemma set_imu_temp_step (current : R) env h :
  ((set_imu_temp heater_built count_modulus current env h).2 = None
   ∧ h_last_update_ms (set_imu_temp heater_built count_modulus current env h).1 = h_last_update_ms h)
  ∨ (is_Some (set_imu_temp heater_built count_modulus current env h).2
     ∧ 1000 ≤ uint32 (env_millis env - h_last_update_ms h)
     ∧ h_last_update_ms (set_imu_temp heater_built count_modulus current env h).1 = env_millis env).
Proof.
  unfold set_imu_temp.
  destruct heater_built; simpl; [|left; done].
  destruct (_ || _ || _); [left; done|].
  destruct (Z.ltb_spec (uint32 (env_millis env - h_last_update_ms h)) 1000).
  - left. done.
  - right. simpl. eauto.
Qed.

(** X12: over any sequence of [set_imu_temp] calls, every duty cycle is set
    at least 1000 ms, counted modulo [2 ^ 32] on the millisecond clock,
    after the previous one, and the first at least 1000 ms after the last
    update the object recorded. *)
Theorem heater_rate_limit samples h :
  spaced (h_last_update_ms h) (run_imu heater_built count_modulus samples h).2.*1.
Proof.
  revert h. induction samples as [|[current env] samples IH]; intros h; simpl.
  { exact I. }
  specialize (IH (set_imu_temp heater_built count_modulus current env h).1).
  destruct (set_imu_temp_step current env h) as [[Hout Hlast] | (Hout & Hgap & Hlast)];
    destruct (set_imu_temp heater_built count_modulus current env h) as [h1 out]; simpl in *;
    destruct (run_imu heater_built count_modulus samples h1) as [h2 outs]; simpl in *.
  - subst out. simpl. now rewrite <- Hlast.
  - destruct Hout as [duty ->]. simpl. split; [exact Hgap|]. now rewrite <- Hlast.
Qed.

(** X13: after [set_imu_target_temp(target)], as long as [target] is null,
    or the value it points to is -1, or the IO processor is disabled, no
    [set_imu_temp] call changes the heater or sets a duty cycle. *)
Theorem heater_disabled (target : Z) samples h :
  Forall (λ c : R * ImuEnv,
            target = 0 ∨ env_int8 c.2 target = -1 ∨ env_io_enabled c.2 = false)
         samples →
  run_imu heater_built count_modulus samples (set_imu_target_temp heater_built target h)
  = (set_imu_target_temp heater_built target h, []).
Proof.
  induction 1 as [|[current env] samples Hoff _ IH]; simpl; [reflexivity|].
  assert (Hstep : set_imu_temp heater_built count_modulus current env
                    (set_imu_target_temp heater_built target h)
                  = (set_imu_target_temp heater_built target h, None)).
  { unfold set_imu_temp, set_imu_target_temp.
    destruct heater_built; simpl; [|reflexivity].
    destruct Hoff as [-> | [Hval | Hio]]; simpl in *.
    - reflexivity.
    - rewrite Hval, Z.eqb_refl, orb_true_r. reflexivity.
    - rewrite Hio, orb_true_r. reflexivity. }
  rewrite Hstep, IH. reflexivity.
Qed.

(** X14: while the heater is enabled and less than 1000 ms have passed
    since the last update, the calls only accumulate: the count grows by
    their number (modulo the range of its type), the sum is the samples
    added in order to the sum before, and no duty cycle is set. *)
Theorem heater_accumulates samples h :
  heater_built = true → 0 < count_modulus → 0 ≤ h_count h < count_modulus →
  Forall (λ c : R * ImuEnv,
            h_target h ≠ 0 ∧ env_int8 c.2 (h_target h) ≠ -1
            ∧ env_io_enabled c.2 = true
            ∧ uint32 (env_millis c.2 - h_last_update_ms h) < 1000)
         samples →
  run_imu heater_built count_modulus samples h
  = (mkHeater (h_target h)
       ((h_count h + Z.of_nat (length samples)) `mod` count_modulus)
       (foldl fadd (h_sum h) samples.*1)
       (h_integrator h) (h_last_update_ms h),
     []).
Proof.
  intros Hbuilt Hmod Hcount Hall. rewrite Hbuilt. revert h Hcount Hall.
  induction samples as [|[current env] samples IH]; intros h Hcount Hall.
  - simpl. rewrite Z.add_0_r, Z.mod_small by lia. destruct h; reflexivity.
  - apply Forall_cons_1 in Hall as [(Htarget & Hval & Hio & Hgap) Hall].
    simpl in Htarget, Hval, Hio, Hgap.
    cbn [run_imu]. unfold set_imu_temp. cbn [negb].
    apply Z.eqb_neq in Htarget, Hval. rewrite Htarget, Hval, Hio. cbn [orb negb].
    apply Z.ltb_lt in Hgap. rewrite Hgap.
    rewrite IH; cbn [h_target h_count h_sum h_integrator h_last_update_ms].
    + rewrite Zplus_mod_idemp_l. cbn [length fmap list_fmap foldl fst].
      do 2 f_equal. f_equal. lia.
    + apply Z.mod_pos_bound. lia.
    + exact Hall.
Qed.
End HeaterFacts.

(** The clock wraps between the last update and the calls: 900 ms after it
    no duty cycle is set, 1100 ms after it one is. *)
Example heater_clock_wraps :
  let h := mkHeater 4096 0 (FInt 0) (FInt 0) (2 ^ 32 - 500) in
  (run_imu true 65536
     [(FInt 20, imu_env 45 true 400); (FInt 22, imu_env 45 true 600)] h).2.*1
  = [600].
Proof. vm_compute. reflexivity. Qed.

Lemma heater_disabled_witness :
  let samples := [(FInt 20, imu_env (-1) true 1500); (FInt 21, imu_env 45 false 2600)] in
  Forall (λ c : FloatExpr * ImuEnv,
            4096 = 0 ∨ env_int8 c.2 4096 = -1 ∨ env_io_enabled c.2 = false)
         samples
  ∧ run_imu true 65536 samples (set_imu_target_temp true 4096 heater_start)
    = (set_imu_target_temp true 4096 heater_start, []).
Proof.
  intros samples.
  assert (H1 : Forall (λ c : FloatExpr * ImuEnv,
                         4096 = 0 ∨ env_int8 c.2 4096 = -1 ∨ env_io_enabled c.2 = false)
                      samples).
  { apply Forall_cons_2; [right; left; reflexivity|].
    apply Forall_cons_2; [right; right; reflexivity|]. constructor. }
  split; [exact H1|]. exact (heater_disabled true 65536 4096 samples heater_start H1).
Defined.

Lemma heater_accumulates_witness :
  let samples := [(FInt 20, imu_env 45 true 100); (FInt 22, imu_env 45 true 900)] in
  run_imu true 65536 samples heater_start
  = (mkHeater (h_target heater_start)
       ((h_count heater_start + Z.of_nat (length samples)) `mod` 65536)
       (foldl fadd (h_sum heater_start) samples.*1)
       (h_integrator heater_start) (h_last_update_ms heater_start),
     [])
  ∧ foldl fadd (h_sum heater_start) samples.*1
    = FAdd (FAdd (FInt 0) (FInt 20)) (FInt 22).
Proof.
  intros samples. split; [|reflexivity].
  apply (heater_accumulates true 65536 samples heater_start).
  - reflexivity.
  - reflexivity.
  - split; [reflexivity | reflexivity].
  - repeat (apply Forall_cons_2;
            [split; [discriminate|]; split; [discriminate|];
             split; [reflexivity | reflexivity]|]).
    constructor.
Defined.
